(** * Battleship-Plus: battlefield model and server connection registry

    A shallow embedding of
      - [src/battleship/common/battlefield/Battlefield.py],
      - [src/battleship/common/battlefield/battleship/Battleship.py],
      - [src/battleship/common/network.py]
    together with the properties stated about them.  [Ship.py],
    [constants.py] and [protocol.py] are not among the sources: what is
    needed of the first two is modelled from the specification and marked
    as such; the message codec is left out.

    Python integers are unbounded, so coordinates, lengths and identifiers
    are [Z].  Python lists are [list]s read with Python's indexing rules
    (negative indices count from the end, anything else out of range raises
    [IndexError]).  Objects mutated in place are threaded explicitly: every
    operation returns the new state next to its result. *)

From stdpp Require Import base gmap list strings sorting.
From Stdlib Require Import ZArith Lia.

#[local] Open Scope Z_scope.

(** ** Python results and values *)

Module Py.

Inductive exn : Type :=
| IndexError
| TypeError
| KeyError.

(** The outcome of evaluating a Python expression that may raise. *)
Inductive result (A : Type) : Type :=
| Ok (a : A)
| Raise (e : exn).
Arguments Ok {A} a.
Arguments Raise {A} e.

#[global] Instance result_ret : MRet result := fun A a => Ok a.
#[global] Instance result_bind : MBind result :=
  fun A B f m => match m with Ok a => f a | Raise e => Raise e end.

(** What a function whose body may end without [return] hands back:
    a [bool], or [None] when control falls off the end. *)
Inductive value : Type :=
| PyBool (b : bool)
| PyNone.

(** [l[i]]: a negative index counts from the end of the list; an index
    outside [-len(l) .. len(l) - 1] raises [IndexError]. *)
Definition getitem {A : Type} (l : list A) (i : Z) : result A :=
  let n := Z.of_nat (length l) in
  let j := if bool_decide (i < 0) then i + n else i in
  if bool_decide (0 <= j < n) then
    match l !! Z.to_nat j with
    | Some a => Ok a
    | None => Raise IndexError
    end
  else Raise IndexError.

(** [len(l)] *)
Definition len {A : Type} (l : list A) : Z := Z.of_nat (length l).

(** A callable handed in as a callback.  [inspect.iscoroutinefunction]
    tells [async def] functions from everything else; the tag only names
    the callable. *)
Inductive callable : Type :=
| AsyncDef (tag : nat)
| Def (tag : nat).

Definition iscoroutinefunction (f : callable) : bool :=
  match f with
  | AsyncDef _ => true
  | Def _ => false
  end.

End Py.

Import Py.

(** ** constants.py (not part of the sources): the two enumerations *)

(** Modelled from the spec: [Direction] of [common/constants.py] is missing;
    the spec fixes the set as up/down/left/right. *)
Inductive Direction : Type :=
| up
| down
| left
| right.

(** Modelled from the spec: [Orientation] of [common/constants.py] is
    missing; the spec gives horizontal/vertical. *)
Inductive Orientation : Type :=
| horizontal
| vertical.

(** ** Ship.py (not part of the sources) *)

Module Ship.

(** Modelled from the spec: the [Ship] class is missing.  The fields are
    the arguments of the [Ship.__init__] call in [Battleship.__init__]
    and the attribute [_ship_id] read by [Battlefield.move], plus the
    orientation and the per-cell damage state the spec lists.  Damage is
    the set of hit cells, as offsets from the origin. *)
Record t : Type := mk {
  _ship_id : Z;
  _ship_type : string;
  _x_pos : Z;
  _y_pos : Z;
  _x_length : Z;
  _y_length : Z;
  _orientation : Orientation;
  _damage : gset (Z * Z)
}.

(** Modelled from the spec: [Ship.__init__(ship_id, ship_type, x_pos,
    y_pos, x_length, y_length)]; a new ship lies horizontally and is
    undamaged. *)
Definition __init__ (ship_id : Z) (ship_type : string)
    (x_pos y_pos x_length y_length : Z) : t :=
  {| _ship_id := ship_id; _ship_type := ship_type;
     _x_pos := x_pos; _y_pos := y_pos;
     _x_length := x_length; _y_length := y_length;
     _orientation := horizontal; _damage := ∅ |}.

(** Modelled from the spec: the extent along each axis, "fully determined
    by origin + orientation + type-specific extents": a vertical ship has
    its two extents swapped. *)
Definition extent (s : t) : Z * Z :=
  match _orientation s with
  | horizontal => (_x_length s, _y_length s)
  | vertical => (_y_length s, _x_length s)
  end.

(** Modelled from the spec: whether [(x, y)] is one of the ship's
    occupied cells. *)
Definition occupies (s : t) (x y : Z) : bool :=
  bool_decide (_x_pos s <= x < _x_pos s + (extent s).1)
  && bool_decide (_y_pos s <= y < _y_pos s + (extent s).2).

(** Modelled from the spec: the occupied cells, listed. *)
Definition occupiedCells (s : t) : list (Z * Z) :=
  x ← seqZ (_x_pos s) (extent s).1;
  y ← seqZ (_y_pos s) (extent s).2;
  [(x, y)].

(** Modelled from the spec: the unit step of a direction.  Only "one
    cell in the given direction" is specified; rows are numbered
    downwards here. *)
Definition delta (d : Direction) : Z * Z :=
  match d with
  | up => (0, -1)
  | down => (0, 1)
  | left => (-1, 0)
  | right => (1, 0)
  end.

Definition translate (d : Direction) (s : t) : t :=
  {| _ship_id := _ship_id s; _ship_type := _ship_type s;
     _x_pos := _x_pos s + (delta d).1; _y_pos := _y_pos s + (delta d).2;
     _x_length := _x_length s; _y_length := _y_length s;
     _orientation := _orientation s; _damage := _damage s |}.

(** A cell of the [bound] x [bound] battlefield. *)
Definition in_bounds (bound : Z) (c : Z * Z) : bool :=
  bool_decide (0 <= c.1 < bound) && bool_decide (0 <= c.2 < bound).

(** Modelled from the spec: [Ship.move(direction)] "returns true and
    commits the move if the new position keeps all occupied cells within
    the battlefield bounds, false (no mutation) otherwise".  The
    constructor receives no bound, so the side length the ship checks
    against is a parameter. *)
Definition move (bound : Z) (d : Direction) (s : t) : t * bool :=
  let s' := translate d s in
  if forallb (in_bounds bound) (occupiedCells s') then (s', true)
  else (s, false).

Definition record_hit (x y : Z) (s : t) : t :=
  {| _ship_id := _ship_id s; _ship_type := _ship_type s;
     _x_pos := _x_pos s; _y_pos := _y_pos s;
     _x_length := _x_length s; _y_length := _y_length s;
     _orientation := _orientation s;
     _damage := {[ (x - _x_pos s, y - _y_pos s) ]} ∪ _damage s |}.

(** Modelled from the spec: [Ship.strikeAtPosition(x, y)] "returns true
    and records a hit if (x, y) is one of the ship's currently-occupied
    cells, false otherwise". *)
Definition strikeAtPosition (x y : Z) (s : t) : t * bool :=
  if occupies s x y then (record_hit x y s, true) else (s, false).

End Ship.

(** ** Battleship.py *)

Module Battleship.

(** [Battleship.__init__(self, ship_id, x_pos, y_pos)] *)
Definition __init__ (ship_id x_pos y_pos : Z) : Ship.t :=
  let _ship_type := "Battleship"%string in
  let _x_length := 5 in
  let _y_length := 1 in
  Ship.__init__ ship_id _ship_type x_pos y_pos _x_length _y_length.

End Battleship.

(** ** Battlefield.py *)

Module Battlefield.

Record t : Type := mk {
  _ships : list Ship.t;
  _my_battlefield : list (list Z);
  _enemy_battlefield : list (list Z)
}.

(** [Battlefield.__init__(self, length, ships)]; the two [print]s only
    log. *)
Definition __init__ (length : Z) (ships : list Ship.t) : t :=
  {| _ships := ships;
     _my_battlefield := [[length]; [length]];
     _enemy_battlefield := [[length]; [length]] |}.

Definition with_ships (b : t) (ships : list Ship.t) : t :=
  {| _ships := ships;
     _my_battlefield := _my_battlefield b;
     _enemy_battlefield := _enemy_battlefield b |}.

(** The [for ship in self._ships] loop of [move]: the first ship whose
    identifier matches decides the result; a loop that runs to its end
    leaves the function without a [return].  [bound] is the side length
    [Ship.move] checks against (see there). *)
Fixpoint move_loop (bound : Z) (ships : list Ship.t) (ship_id : Z)
    (direction : Direction) : list Ship.t * value :=
  match ships with
  | [] => ([], PyNone)
  | ship :: rest =>
      if bool_decide (Ship._ship_id ship = ship_id) then
        let '(ship', moved) := Ship.move bound direction ship in
        if moved then (ship' :: rest, PyBool true)
        else (ship' :: rest, PyBool false)
      else
        let '(rest', r) := move_loop bound rest ship_id direction in
        (ship :: rest', r)
  end.

(** [Battlefield.move(self, ship_id, direction)] *)
Definition move (bound : Z) (b : t) (ship_id : Z) (direction : Direction)
    : t * value :=
  let '(ships', r) := move_loop bound (_ships b) ship_id direction in
  (with_ships b ships', r).

(** The [for ship in self._ships] loop of [strike]. *)
Fixpoint strike_loop (ships : list Ship.t) (x_pos y_pos : Z)
    : list Ship.t * bool :=
  match ships with
  | [] => ([], false)
  | ship :: rest =>
      let '(ship', hit) := Ship.strikeAtPosition x_pos y_pos ship in
      if hit then (ship' :: rest, true)
      else
        let '(rest', r) := strike_loop rest x_pos y_pos in
        (ship' :: rest', r)
  end.

(** [Battlefield.strike(self, x_pos, y_pos)] *)
Definition strike (b : t) (x_pos y_pos : Z) : t * bool :=
  let '(ships', r) := strike_loop (_ships b) x_pos y_pos in
  (with_ships b ships', r).

(** [self._enemy_battlefield[x_pos][y_pos]] *)
Definition enemy_cell (b : t) (x_pos y_pos : Z) : result Z :=
  row ← getitem (_enemy_battlefield b) x_pos;
  getitem row y_pos.

(** [Battlefield.shoot(self, x_pos, y_pos)]; the cell is read again in
    each [elif]. *)
Definition shoot (b : t) (x_pos y_pos : Z) : result bool :=
  if bool_decide (x_pos * y_pos >= len (_enemy_battlefield b)) then
    c0 ← enemy_cell b x_pos y_pos;
    if bool_decide (c0 = 0) then Ok true
    else
      c1 ← enemy_cell b x_pos y_pos;
      if bool_decide (c1 = 1) then Ok true
      else
        c2 ← enemy_cell b x_pos y_pos;
        if bool_decide (c2 = 2) then Ok true
        else Ok false
  else Ok false.

(** A grid of [n] rows of [n] cells. *)
Definition square (n : Z) (grid : list (list Z)) : Prop :=
  len grid = n /\ Forall (fun row => len row = n) grid.

(** The three states of an enemy-grid cell: 0=hidden, 1=hit, 2=miss. *)
Definition cell_state (c : Z) : Prop := c = 0 \/ c = 1 \/ c = 2.

End Battlefield.

(** ** network.py *)

(** The part of [asyncio] that [network.py] relies on: a task is created
    pending, collects done-callbacks, and finishes once. *)
Module Asyncio.

Record Task (C : Type) : Type := mk {
  done : bool;
  _callbacks : list C
}.
Arguments mk {C} done _callbacks.
Arguments done {C} t.
Arguments _callbacks {C} t.

End Asyncio.

Module Network.

(** Handles of [asyncio.Task] objects and of stream readers/writers:
    object identity, numbered in order of creation. *)
Definition task : Type := nat.
Definition stream : Type := nat.

Module BattleshipServerClient.

Record t : Type := mk {
  reader : stream;
  writer : stream;
  id : Z
}.

(** [BattleshipServerClient.__init__(self, reader, writer)], given the
    class attribute [next_client_id]; returns the object and the
    attribute's new value. *)
Definition __init__ (next_client_id : Z) (reader writer : stream)
    : t * Z :=
  ({| reader := reader; writer := writer; id := next_client_id |},
   next_client_id + 1).

End BattleshipServerClient.

(** The functions registered with [Task.add_done_callback]: the closure
    [internal_client_done] of [_accept_client], which captured
    [external_disconnected_callback], and the bound method
    [_server_closed_connection] of a client with its [closed_callback]. *)
Inductive done_callback : Type :=
| internal_client_done (external_disconnected_callback : callable)
| _server_closed_connection (closed_callback : callable).

(** Calls made into the code that uses [network.py]. *)
Inductive call : Type :=
| client_connected (client_obj : BattleshipServerClient.t)
| disconnected (of_task : task) (callback : callable).

(** One [BattleshipServer] and the interpreter state around it:
    the class attribute [BattleshipServerClient.next_client_id], the
    tasks created so far (a task's handle is its position), the server's
    [client_connected_callback] and [clients], and the calls made into
    the user's callbacks so far. *)
Record state : Type := mk {
  next_client_id : Z;
  tasks : list (Asyncio.Task done_callback);
  client_connected_callback :
    BattleshipServerClient.t -> callable * callable;
  clients : gmap task BattleshipServerClient.t;
  calls : list call
}.

Definition set_next_client_id (n : Z) (s : state) : state :=
  mk n (tasks s) (client_connected_callback s) (clients s) (calls s).
Definition set_tasks (ts : list (Asyncio.Task done_callback)) (s : state)
    : state :=
  mk (next_client_id s) ts (client_connected_callback s) (clients s)
     (calls s).
Definition set_clients (m : gmap task BattleshipServerClient.t)
    (s : state) : state :=
  mk (next_client_id s) (tasks s) (client_connected_callback s) m
     (calls s).
Definition set_calls (l : list call) (s : state) : state :=
  mk (next_client_id s) (tasks s) (client_connected_callback s)
     (clients s) l.

(** Statements run on the state and either complete or raise. *)
Definition M (A : Type) : Type := state -> state * result A.

#[global] Instance M_ret : MRet M := fun A a s => (s, Ok a).
#[global] Instance M_bind : MBind M :=
  fun A B f m s =>
    match m s with
    | (s', Ok a) => f a s'
    | (s', Raise e) => (s', Raise e)
    end.

Definition raise {A : Type} (e : exn) : M A := fun s => (s, Raise e).

(** [asyncio.Task(coro)]: a new pending task without callbacks. *)
Definition Task_new : M task :=
  fun s =>
    (set_tasks (tasks s ++ [Asyncio.mk false []]) s,
     Ok (length (tasks s))).

(** [task.add_done_callback(f)] on a task that has not finished. *)
Definition add_done_callback (t : task) (f : done_callback) : M unit :=
  fun s =>
    (set_tasks
       (alter (fun k => Asyncio.mk (Asyncio.done k)
                          (Asyncio._callbacks k ++ [f])) t (tasks s)) s,
     Ok tt).

(** [BattleshipServerClient(reader, writer)] *)
Definition new_client (reader writer : stream)
    : M BattleshipServerClient.t :=
  fun s =>
    let '(client_obj, n) :=
      BattleshipServerClient.__init__ (next_client_id s) reader writer in
    (set_next_client_id n s, Ok client_obj).

(** [self.clients[task] = client_obj] *)
Definition clients_setitem (t : task)
    (client_obj : BattleshipServerClient.t) : M unit :=
  fun s => (set_clients (<[t := client_obj]> (clients s)) s, Ok tt).

(** [del self.clients[task]] *)
Definition clients_delitem (t : task) : M unit :=
  fun s =>
    match clients s !! t with
    | Some _ => (set_clients (delete t (clients s)) s, Ok tt)
    | None => (s, Raise KeyError)
    end.

(** [self.client_connected_callback(client_obj)] *)
Definition call_client_connected (client_obj : BattleshipServerClient.t)
    : M (callable * callable) :=
  fun s =>
    (set_calls (calls s ++ [client_connected client_obj]) s,
     Ok (client_connected_callback s client_obj)).

(** Calling a disconnect callback from the done-callback of task [t]. *)
Definition call_disconnected (t : task) (f : callable) : M unit :=
  fun s => (set_calls (calls s ++ [disconnected t f]) s, Ok tt).

Module BattleshipServer.

(** [BattleshipServer.__init__] in a fresh interpreter: the class
    attribute starts at 1, no task exists, [self.clients = {}]. *)
Definition __init__
    (client_connected_callback :
       BattleshipServerClient.t -> callable * callable) : state :=
  {| next_client_id := 1;
     tasks := [];
     client_connected_callback := client_connected_callback;
     clients := ∅;
     calls := [] |}.

(** [BattleshipServer._accept_client(self, client_reader,
    client_writer)] *)
Definition _accept_client (client_reader client_writer : stream)
    : M unit :=
  task ← Task_new;
  client_obj ← new_client client_reader client_writer;
  _ ← clients_setitem task client_obj;
  '(external_msg_callback, external_disconnected_callback) ←
    call_client_connected client_obj;
  if negb (iscoroutinefunction external_msg_callback) then
    raise TypeError
  else
    add_done_callback task
      (internal_client_done external_disconnected_callback).

End BattleshipServer.

Module BattleshipClient.

Record t : Type := mk {
  msg_callback : callable;
  closed_callback : callable;
  receiving_task : option task
}.

(** [BattleshipClient.__init__(self, server, port, loop, msg_callback,
    closed_callback)]; address and loop are not modelled. *)
Definition __init__ (msg_callback closed_callback : callable) : M t :=
  if negb (iscoroutinefunction msg_callback) then
    raise TypeError
  else
    mret {| msg_callback := msg_callback;
            closed_callback := closed_callback;
            receiving_task := None |}.

(** [BattleshipClient.connect(self)], for a connection that opens. *)
Definition connect (self : t) : M t :=
  task ← Task_new;
  _ ← add_done_callback task
        (_server_closed_connection (closed_callback self));
  mret {| msg_callback := msg_callback self;
          closed_callback := closed_callback self;
          receiving_task := Some task |}.

End BattleshipClient.

(** Running one done-callback of task [t]. *)
Definition run_done_callback (t : task) (f : done_callback) : M unit :=
  match f with
  | internal_client_done external_disconnected_callback =>
      _ ← call_disconnected t external_disconnected_callback;
      clients_delitem t
  | _server_closed_connection closed_callback =>
      call_disconnected t closed_callback
  end.

(** The loop runs the callbacks of a finished task one after the other;
    an exception raised by one of them is logged by the loop and does
    not stop the others. *)
Fixpoint run_done_callbacks (t : task) (fs : list done_callback)
    (s : state) : state :=
  match fs with
  | [] => s
  | f :: fs' => run_done_callbacks t fs' (run_done_callback t f s).1
  end.

(** Why the receiving task of a connection ends: the peer closed the
    stream, [BattleshipClient.close] (or the server's owner) closed the
    writer, or [parse_from_stream] failed on the bytes it read.  When the
    task ends is decided in [protocol.py] and by the loop; here it is an
    event. *)
Inductive cause : Type :=
| peer_closed
| closed_locally
| decode_error.

(** A pending task finishes (for whatever cause): it becomes done and
    its callbacks run.  A task that is done stays as it is. *)
Definition task_finishes (t : task) (why : cause) (s : state) : state :=
  match tasks s !! t with
  | Some k =>
      if Asyncio.done k then s
      else
        run_done_callbacks t (Asyncio._callbacks k)
          (set_tasks
             (<[t := Asyncio.mk true (Asyncio._callbacks k)]> (tasks s))
             s)
  | None => s
  end.

(** What happens while the loop runs: the server accepts a connection,
    a client connects, the receiving task of a connection ends.  An
    exception that leaves [_accept_client] ends that call only. *)
Inductive event : Type :=
| accept (client_reader client_writer : stream)
| connect (client : BattleshipClient.t)
| finish (t : task) (why : cause).

Definition step (s : state) (e : event) : state :=
  match e with
  | accept client_reader client_writer =>
      (BattleshipServer._accept_client client_reader client_writer s).1
  | connect client => (BattleshipClient.connect client s).1
  | finish t why => task_finishes t why s
  end.

Definition run (s : state) (es : list event) : state :=
  foldl step s es.

(** The identifiers handed to [client_connected_callback], in order. *)
Definition assigned_ids (s : state) : list Z :=
  omap (fun c => match c with
                 | client_connected client_obj =>
                     Some (BattleshipServerClient.id client_obj)
                 | disconnected _ _ => None
                 end) (calls s).

Definition is_disconnect_of (t : task) (c : call) : bool :=
  match c with
  | disconnected t' _ => bool_decide (t' = t)
  | client_connected _ => false
  end.

(** How often a disconnect callback has been called for task [t]. *)
Definition disconnects_of (t : task) (s : state) : nat :=
  length (filter (fun c => is_disconnect_of t c = true) (calls s)).

End Network.

(** ** network.py: [BattleshipServer.start] and [BattleshipServer.stop] *)

(** The listening side of a [BattleshipServer]: the attribute
    [self.server] and the [asyncio] server objects that are listening.
    A server object is named by the number of server objects created
    before it. *)
Module Listening.

Definition listener : Type := nat.

Record t : Type := mk {
  server : option listener;
  listening : gset listener;
  created : nat
}.

(** After [BattleshipServer.__init__]: [self.server = None]. *)
Definition __init__ : t :=
  {| server := None; listening := ∅; created := 0 |}.

(** How a call ends. *)
Inductive outcome : Type :=
| returned
| raised_OSError.

(** [BattleshipServer.start(self)].  [asyncio.streams.start_server] either
    returns a new listening server object or, when it cannot bind the
    address, raises; in that case the assignment to [self.server] is not
    reached. *)
Definition start (can_bind : bool) (s : t) : t * outcome :=
  if can_bind then
    ({| server := Some (created s);
        listening := {[ created s ]} ∪ listening s;
        created := S (created s) |},
     returned)
  else (s, raised_OSError).

(** [BattleshipServer.stop(self)] *)
Definition stop (s : t) : t :=
  match server s with
  | Some l =>
      {| server := None;
         listening := listening s ∖ {[ l ]};
         created := created s |}
  | None => s
  end.

(** Calls made on one server object. *)
Inductive call : Type :=
| call_start (can_bind : bool)
| call_stop.

Definition do_call (s : t) (c : call) : t :=
  match c with
  | call_start can_bind => (start can_bind s).1
  | call_stop => stop s
  end.

Definition do_calls (s : t) (cs : list call) : t := foldl do_call s cs.

End Listening.

(** ** Sequences of operations *)

(** Calls made on one battlefield. *)
Inductive battlefield_call : Type :=
| call_move (ship_id : Z) (direction : Direction)
| call_strike (x_pos y_pos : Z)
| call_shoot (x_pos y_pos : Z).

(** The battlefield after a call; [shoot] only reads. *)
Definition after_call (bound : Z) (b : Battlefield.t)
    (c : battlefield_call) : Battlefield.t :=
  match c with
  | call_move ship_id direction =>
      (Battlefield.move bound b ship_id direction).1
  | call_strike x_pos y_pos => (Battlefield.strike b x_pos y_pos).1
  | call_shoot _ _ => b
  end.

Definition after_calls (bound : Z) (b : Battlefield.t)
    (cs : list battlefield_call) : Battlefield.t :=
  foldl (after_call bound) b cs.


(** ** Statements checked against the code *)

(** "When ship [s] occupies the cell only [s]'s damage state at that cell
    changes": whenever the ship at position [i] occupies the struck cell,
    that ship and no other is changed, by a hit recorded at the cell. *)
Definition strike_changes_only (b : Battlefield.t) (x y : Z) (i : nat)
    (s : Ship.t) : Prop :=
  Battlefield._ships b !! i = Some s ->
  Ship.occupies s x y = true ->
  Battlefield.strike b x y
  = (Battlefield.with_ships b
       (<[i := Ship.record_hit x y s]> (Battlefield._ships b)), true).

(** What holds of the identifiers in every state the server reaches: an
    identifier in the registry was handed out, no two registry entries
    share one, the identifiers handed out so far increase strictly, and
    all lie below the counter. *)
Definition ids_invariant (s : Network.state) : Prop :=
  (forall t c, Network.clients s !! t = Some c ->
     Network.BattleshipServerClient.id c ∈ Network.assigned_ids s)
  /\ (forall t1 t2 c1 c2,
        Network.clients s !! t1 = Some c1 ->
        Network.clients s !! t2 = Some c2 ->
        Network.BattleshipServerClient.id c1
        = Network.BattleshipServerClient.id c2 ->
        t1 = t2)
  /\ StronglySorted Z.lt (Network.assigned_ids s)
  /\ Forall (fun i => i < Network.next_client_id s) (Network.assigned_ids s).

(** What holds of task [t] in every state the server reaches.  A handle
    not yet in use has no registry entry and no disconnect call.  A task
    without done-callback (its [_accept_client] raised) keeps its registry
    entry and never sees a disconnect call.  A task with the callback of
    [_accept_client] has its entry and no disconnect call while pending,
    and one disconnect call and no entry once done.  A task of a client
    has no registry entry, and one disconnect call once done. *)
Definition lifecycle (s : Network.state) (t : Network.task) : Prop :=
  match Network.tasks s !! t with
  | None =>
      Network.disconnects_of t s = 0%nat /\ Network.clients s !! t = None
  | Some k =>
      match Asyncio._callbacks k with
      | [] =>
          Network.disconnects_of t s = 0%nat
          /\ is_Some (Network.clients s !! t)
      | [Network.internal_client_done _] =>
          if Asyncio.done k
          then Network.disconnects_of t s = 1%nat
               /\ Network.clients s !! t = None
          else Network.disconnects_of t s = 0%nat
               /\ is_Some (Network.clients s !! t)
      | [Network._server_closed_connection _] =>
          Network.disconnects_of t s = (if Asyncio.done k then 1 else 0)%nat
          /\ Network.clients s !! t = None
      | _ => False
      end
  end.


(** * Properties of the battlefield *)

Section BattlefieldFacts.

Import Battlefield.

Implicit Types (b : Battlefield.t) (s : Ship.t) (ships : list Ship.t).
Implicit Types (x y length bound : Z).

(** ** Indexing *)

Lemma getitem_out_of_range {A : Type} (l : list A) (i : Z) :
  i < - len l \/ len l <= i -> getitem l i = Raise IndexError.
Proof.
  unfold getitem, len. intros Hi.
  destruct (bool_decide_reflect (i < 0)) as [Hneg | Hpos];
    rewrite bool_decide_false by lia; reflexivity.
Qed.

Lemma getitem_pair {A : Type} (a0 a1 : A) (i : Z) :
  getitem [a0; a1] i =
    if bool_decide (i = 0 \/ i = -2) then Ok a0
    else if bool_decide (i = 1 \/ i = -1) then Ok a1
    else Raise IndexError.
Proof.
  assert (Hi : i = -2 \/ i = -1 \/ i = 0 \/ i = 1 \/ i < -2 \/ 2 <= i) by lia.
  destruct Hi as [-> | [-> | [-> | [-> | Hi]]]]; try reflexivity.
  rewrite getitem_out_of_range by (unfold len; cbn [base.length Datatypes.length]; lia).
  rewrite !bool_decide_false by lia. reflexivity.
Qed.

Lemma getitem_single {A : Type} (a : A) (i : Z) :
  getitem [a] i =
    if bool_decide (i = 0 \/ i = -1) then Ok a else Raise IndexError.
Proof.
  assert (Hi : i = -1 \/ i = 0 \/ i < -1 \/ 1 <= i) by lia.
  destruct Hi as [-> | [-> | Hi]]; try reflexivity.
  rewrite getitem_out_of_range by (unfold len; cbn [base.length Datatypes.length]; lia).
  rewrite bool_decide_false by lia. reflexivity.
Qed.

(** The cells of a new battlefield that can be read at all: rows -2..1,
    columns -1..0, each holding [length]. *)
Lemma enemy_cell_init length ships x y :
  enemy_cell (__init__ length ships) x y =
    if bool_decide (-2 <= x <= 1 /\ -1 <= y <= 0) then Ok length
    else Raise IndexError.
Proof.
  unfold enemy_cell, __init__. cbn [_enemy_battlefield].
  rewrite getitem_pair.
  repeat case_bool_decide; cbn; rewrite ?getitem_single;
    repeat case_bool_decide; try reflexivity; lia.
Qed.

(** Below the guard [shoot] answers [False] whatever the grid holds. *)
Lemma shoot_below_guard b x y :
  x * y < len (_enemy_battlefield b) -> shoot b x y = Ok false.
Proof.
  intros Hlt. unfold shoot. case_bool_decide; [lia | reflexivity].
Qed.

Lemma shoot_init_above_guard length ships x y :
  x * y >= 2 ->
  shoot (__init__ length ships) x y =
    if bool_decide (x = -2 /\ y = -1)
    then Ok (bool_decide (0 <= length <= 2))
    else Raise IndexError.
Proof.
  intros Hge. unfold shoot.
  rewrite !enemy_cell_init.
  change (len (_enemy_battlefield (__init__ length ships))) with 2.
  rewrite bool_decide_true by lia.
  destruct (bool_decide_reflect (x = -2 /\ y = -1)) as [[-> ->] | Hne].
  - rewrite bool_decide_true by lia. cbn.
    repeat case_bool_decide; try reflexivity; lia.
  - rewrite bool_decide_false; [reflexivity |].
    intros [Hx Hy]. apply Hne. nia.
Qed.


(** ** [shoot] *)

(** C1 (the code departs from the claim).  [shoot] is to answer [False]
    for a coordinate outside the grid or with a state that forbids the
    shot, and [True] otherwise.  On a battlefield of length 10 it answers
    neither for (5, 5), inside the 10 x 10 field, nor for (20, 20), outside
    it: both pass the guard [x_pos * y_pos >= len(...)] and the read raises
    [IndexError].  For (0, 0), never shot at, the guard fails and the
    answer is [False] without the cell being read; the same happens on a
    battlefield whose cell (0, 0) holds 0, "hidden". *)
Theorem shoot_guard_is_no_range_check :
  let b := __init__ 10 [] in
  let b0 := __init__ 0 [] in
  shoot b 5 5 = Raise IndexError
  /\ shoot b 20 20 = Raise IndexError
  /\ shoot b 0 0 = Ok false
  /\ enemy_cell b0 0 0 = Ok 0
  /\ shoot b0 0 0 = Ok false.
Proof. repeat split; reflexivity. Qed.

(** C7 as stated fails: with Python's negative indices the read at
    (-2, -1) is inside the list, and on a battlefield of length 2 the
    shot is accepted. *)
Lemma shoot_negative_index_accepted :
  let b := __init__ 2 [] in
  (-2) * (-1) >= 2
  /\ enemy_cell b (-2) (-1) = Ok 2
  /\ shoot b (-2) (-1) = Ok true.
Proof. repeat split; [lia | reflexivity..]. Qed.

(** C7 (amended).  On a newly constructed battlefield: a coordinate with
    [x * y < 2] is answered [False] without a cell being read; a
    coordinate with [x * y >= 2] other than (-2, -1) makes the read raise
    [IndexError]; at (-2, -1) the read succeeds and the answer is [True]
    exactly when [length] is 0, 1 or 2.  So no coordinate with
    non-negative components is ever answered [True]. *)
Theorem shoot_fresh_battlefield length ships x y :
  let b := __init__ length ships in
  (x * y < 2 -> shoot b x y = Ok false)
  /\ (x * y >= 2 -> (x, y) <> (-2, -1) -> shoot b x y = Raise IndexError)
  /\ shoot b (-2) (-1) = Ok (bool_decide (0 <= length <= 2))
  /\ (0 <= x -> 0 <= y -> shoot b x y <> Ok true).
Proof.
  intros b. subst b. repeat split.
  - intros Hlt. apply shoot_below_guard. exact Hlt.
  - intros Hge Hne. rewrite shoot_init_above_guard by exact Hge.
    rewrite bool_decide_false; [reflexivity |].
    intros [-> ->]. apply Hne. reflexivity.
  - rewrite shoot_init_above_guard by lia. reflexivity.
  - intros Hx Hy.
    destruct (Z.lt_ge_cases (x * y) 2) as [Hlt | Hge].
    + rewrite shoot_below_guard by exact Hlt. discriminate.
    + rewrite shoot_init_above_guard by lia.
      rewrite bool_decide_false by lia. discriminate.
Qed.

(** ** The grids *)

(** C5 (the code departs from the claim).  Whatever [length] is, the
    constructor builds both grids as two rows of one cell, each cell
    holding [length] itself: neither grid is [length] x [length], and a
    cell holds one of the three states only if [length] is 0, 1 or 2. *)
Theorem init_grids_not_square length ships :
  let b := __init__ length ships in
  ~ square length (_enemy_battlefield b)
  /\ ~ square length (_my_battlefield b)
  /\ _enemy_battlefield b = [[length]; [length]]
  /\ (Forall (Forall cell_state) (_enemy_battlefield b)
      <-> 0 <= length <= 2).
Proof.
  intros b. subst b. cbn [__init__ _enemy_battlefield _my_battlefield].
  assert (Hns : ~ square length [[length]; [length]]).
  { intros [Hrows Hcols]. apply Forall_cons in Hcols as [Hrow _].
    unfold len in *. cbn in *. lia. }
  split; [exact Hns |]. split; [exact Hns |]. split; [reflexivity |].
  split.
  - intros Hall. apply Forall_cons in Hall as [Hrow _].
    apply Forall_cons in Hrow as [Hc _]. unfold cell_state in Hc. lia.
  - intros Hlen. assert (Hc : cell_state length) by (unfold cell_state; lia).
    assert (Hrow : Forall cell_state [length])
      by (apply Forall_cons_2; [exact Hc | apply Forall_nil_2]).
    apply Forall_cons_2; [exact Hrow |].
    apply Forall_cons_2; [exact Hrow | apply Forall_nil_2].
Qed.

End BattlefieldFacts.

(** * Properties of ships and of the operations that reach them *)

Section ShipFacts.

Import Battlefield.

Implicit Types (b : Battlefield.t) (s : Ship.t) (ships : list Ship.t).
Implicit Types (x y bound ship_id : Z) (d : Direction).

(** The listed cells are the occupied ones. *)
Lemma elem_of_occupiedCells s x y :
  (x, y) ∈ Ship.occupiedCells s <-> Ship.occupies s x y = true.
Proof.
  unfold Ship.occupiedCells, Ship.occupies.
  rewrite andb_true_iff, !bool_decide_eq_true.
  rewrite list_elem_of_bind. split.
  - intros (x' & Hin & Hx). apply list_elem_of_bind in Hin as (y' & Hin & Hy).
    apply list_elem_of_singleton in Hin. injection Hin as -> ->.
    apply elem_of_seqZ in Hx. apply elem_of_seqZ in Hy. lia.
  - intros [Hx Hy]. exists x. split.
    + apply list_elem_of_bind. exists y. split.
      * apply list_elem_of_singleton. reflexivity.
      * apply elem_of_seqZ. lia.
    + apply elem_of_seqZ. lia.
Qed.

Lemma forallb_in_bounds_occupied bound s :
  forallb (Ship.in_bounds bound) (Ship.occupiedCells s) = true
  <-> (forall x y, Ship.occupies s x y = true ->
                   0 <= x < bound /\ 0 <= y < bound).
Proof.
  rewrite forallb_forall. split.
  - intros Hall x y Hocc.
    apply elem_of_occupiedCells, list_elem_of_In, Hall in Hocc.
    unfold Ship.in_bounds in Hocc. cbn in Hocc.
    apply andb_true_iff in Hocc as [Hx Hy].
    apply bool_decide_eq_true in Hx. apply bool_decide_eq_true in Hy.
    split; assumption.
  - intros Hall [x y] Hin.
    apply list_elem_of_In, elem_of_occupiedCells, Hall in Hin.
    unfold Ship.in_bounds. cbn.
    apply andb_true_iff. rewrite !bool_decide_eq_true. exact Hin.
Qed.

(** C3.  [Ship.move] looks at the ship shifted by one cell in the given
    direction: if every cell that ship occupies lies on the battlefield,
    the shifted ship is the new state and the result is [True]; if not,
    the ship is as before and the result is [False]. *)
Theorem ship_move_within_bounds bound d s :
  let s' := Ship.translate d s in
  let fits := forall x y, Ship.occupies s' x y = true ->
                          0 <= x < bound /\ 0 <= y < bound in
  Z.abs (Ship._x_pos s' - Ship._x_pos s)
    + Z.abs (Ship._y_pos s' - Ship._y_pos s) = 1
  /\ (fits <-> (Ship.move bound d s).2 = true)
  /\ (fits -> Ship.move bound d s = (s', true))
  /\ (~ fits -> Ship.move bound d s = (s, false)).
Proof.
  intros s' fits. subst s' fits.
  pose proof (forallb_in_bounds_occupied bound (Ship.translate d s)) as Hfits.
  unfold Ship.move.
  destruct (forallb (Ship.in_bounds bound)
              (Ship.occupiedCells (Ship.translate d s))) eqn:Hall.
  - split; [destruct d; cbn; lia |].
    split; [split; [reflexivity | intros _; apply Hfits; reflexivity] |].
    split; [reflexivity |].
    intros Hno. exfalso. apply Hno, Hfits. reflexivity.
  - split; [destruct d; cbn; lia |].
    split; [split; [intros H; apply Hfits in H; discriminate
                   | discriminate] |].
    split; [| reflexivity].
    intros H. apply Hfits in H. discriminate.
Qed.

(** ** [Battlefield.strike] *)

(** The loop changes the first ship that occupies the cell, if any. *)
Lemma strike_loop_find ships x y :
  strike_loop ships x y =
    match list_find (fun s => Ship.occupies s x y = true) ships with
    | Some (i, s) => (<[i := Ship.record_hit x y s]> ships, true)
    | None => (ships, false)
    end.
Proof.
  induction ships as [| s ships IH]; [reflexivity |].
  cbn [strike_loop list_find]. unfold Ship.strikeAtPosition.
  destruct (Ship.occupies s x y) eqn:Hocc.
  - rewrite decide_True by reflexivity. reflexivity.
  - rewrite decide_False by discriminate. rewrite IH.
    destruct (list_find _ ships) as [[i s'] |]; reflexivity.
Qed.

Lemma with_ships_same b : with_ships b (_ships b) = b.
Proof. destruct b. reflexivity. Qed.

(** C2 as stated fails when two ships overlap: both battleships occupy
    (0, 0), the strike is recorded on the first one, and the second one,
    which occupies the cell as well, is left as it was. *)
Lemma strike_overlap_hits_first_only :
  let s1 := Battleship.__init__ 1 0 0 in
  let s2 := Battleship.__init__ 2 0 0 in
  let b := Battlefield.__init__ 10 [s1; s2] in
  Ship.occupies s2 0 0 = true
  /\ strike b 0 0 = (with_ships b [Ship.record_hit 0 0 s1; s2], true)
  /\ ~ strike_changes_only b 0 0 1 s2.
Proof.
  cbv zeta. split; [reflexivity |]. split; [reflexivity |].
  unfold strike_changes_only. intros Hclaim.
  specialize (Hclaim eq_refl eq_refl).
  apply (f_equal (fun r => match _ships r.1 with
                           | s :: _ => bool_decide ((0, 0) ∈ Ship._damage s)
                           | [] => false
                           end)) in Hclaim.
  vm_compute in Hclaim. discriminate.
Qed.

(** C2 (amended).  [strike] answers [True] exactly when some owned ship
    occupies the cell.  If none does, nothing changes.  If some do, the
    first of them in the list gets the hit recorded at that cell and every
    other ship, and everything else about the first, stays as it was. *)
Theorem strike_hits_first_occupant b x y :
  ((strike b x y).2 = true
   <-> exists s, s ∈ _ships b /\ Ship.occupies s x y = true)
  /\ match list_find (fun s => Ship.occupies s x y = true) (_ships b) with
     | Some (i, s) =>
         strike b x y
         = (with_ships b (<[i := Ship.record_hit x y s]> (_ships b)), true)
     | None => strike b x y = (b, false)
     end.
Proof.
  unfold strike. rewrite strike_loop_find.
  destruct (list_find _ (_ships b)) as [[i s] |] eqn:Hfind.
  - apply list_find_Some in Hfind as (Hi & Hocc & _).
    split; [| reflexivity]. split; [| reflexivity].
    intros _. exists s. split; [| exact Hocc].
    eapply list_elem_of_lookup_2. exact Hi.
  - apply list_find_None in Hfind. rewrite with_ships_same.
    split; [| reflexivity]. split; [discriminate |].
    intros (s & Hin & Hocc). exfalso.
    rewrite Forall_forall in Hfind. exact (Hfind s Hin Hocc).
Qed.

(** ** [Battlefield.move] *)

(** With no ship of that identifier the loop runs to its end: nothing is
    changed and the function ends without a [return]. *)
Lemma move_loop_unknown_id bound ships ship_id d :
  Forall (fun s => Ship._ship_id s <> ship_id) ships ->
  move_loop bound ships ship_id d = (ships, PyNone).
Proof.
  induction 1 as [| s ships Hne Hall IH]; [reflexivity |].
  cbn [move_loop]. rewrite bool_decide_false by exact Hne.
  rewrite IH. reflexivity.
Qed.

Lemma move_unknown_id bound b ship_id d :
  Forall (fun s => Ship._ship_id s <> ship_id) (_ships b) ->
  move bound b ship_id d = (b, PyNone).
Proof.
  intros Hall. unfold move. rewrite move_loop_unknown_id by exact Hall.
  rewrite with_ships_same. reflexivity.
Qed.

(** C6 (the code departs from the claim).  On a battlefield whose only
    ship has identifier 1, [move(2, right)] changes nothing, but what it
    returns is [None], not [False]: the loop ends and no [return False]
    follows it, unlike in [strike]. *)
Theorem move_unknown_id_returns_None :
  let b := Battlefield.__init__ 10 [Battleship.__init__ 1 0 0] in
  move 10 b 2 right = (b, PyNone)
  /\ (move 10 b 2 right).2 <> PyBool false.
Proof.
  cbv zeta. rewrite move_unknown_id.
  - split; [reflexivity | discriminate].
  - apply Forall_cons_2; [discriminate | apply Forall_nil_2].
Qed.

(** The scenario of the spec: a 10 x 10 battlefield with one battleship
    at the origin. *)
Example scenario_battleship_at_origin :
  let b := Battlefield.__init__ 10 [Battleship.__init__ 1 0 0] in
  (strike b 0 0).2 = true
  /\ (strike b 9 9).2 = false
  /\ (move 10 b 1 right).2 = PyBool true
  /\ (strike (move 10 b 1 right).1 0 0).2 = false
  /\ (strike (move 10 b 1 right).1 1 0).2 = true.
Proof. repeat split; reflexivity. Qed.

End ShipFacts.

(** * Properties of the connection registry *)

Section NetworkFacts.

Import Network.

Implicit Types (s : state) (t : task) (c : BattleshipServerClient.t).
Implicit Types (es : list event) (f : done_callback).

Lemma alter_at_end {A : Type} (g : A -> A) (l : list A) (a : A) :
  alter g (length l) (l ++ [a]) = l ++ [g a].
Proof. induction l as [| a' l IH]; cbn; [reflexivity | f_equal; exact IH]. Qed.

(** What [_accept_client] does, spelled out. *)
Lemma accept_client_eq client_reader client_writer s :
  let t := length (tasks s) in
  let c := BattleshipServerClient.mk client_reader client_writer
             (next_client_id s) in
  let cbs := client_connected_callback s c in
  BattleshipServer._accept_client client_reader client_writer s
  = if iscoroutinefunction cbs.1 then
      (mk (next_client_id s + 1)
          (tasks s ++ [Asyncio.mk false [internal_client_done cbs.2]])
          (client_connected_callback s)
          (<[t := c]> (clients s))
          (calls s ++ [client_connected c]),
       Ok tt)
    else
      (mk (next_client_id s + 1)
          (tasks s ++ [Asyncio.mk false []])
          (client_connected_callback s)
          (<[t := c]> (clients s))
          (calls s ++ [client_connected c]),
       Raise TypeError).
Proof.
  intros t c cbs. subst t c cbs.
  unfold BattleshipServer._accept_client, mbind, M_bind, Task_new,
    new_client, clients_setitem, call_client_connected, add_done_callback,
    raise, BattleshipServerClient.__init__.
  cbn.
  destruct (client_connected_callback s _) as [msg disc]. cbn.
  destruct (iscoroutinefunction msg); cbn; [| reflexivity].
  unfold set_tasks. cbn. rewrite alter_at_end. reflexivity.
Qed.

(** What [connect] does, spelled out. *)
Lemma connect_eq (client : BattleshipClient.t) s :
  (BattleshipClient.connect client s).1
  = set_tasks
      (tasks s
       ++ [Asyncio.mk false
             [_server_closed_connection
                (BattleshipClient.closed_callback client)]]) s.
Proof.
  unfold BattleshipClient.connect, mbind, M_bind, Task_new,
    add_done_callback, mret, M_ret, set_tasks.
  cbn. rewrite alter_at_end. reflexivity.
Qed.


(** ** What each event leaves alone *)

Lemma accept_fields client_reader client_writer s :
  let s' := step s (accept client_reader client_writer) in
  let c := BattleshipServerClient.mk client_reader client_writer
             (next_client_id s) in
  next_client_id s' = next_client_id s + 1
  /\ clients s' = <[length (tasks s) := c]> (clients s)
  /\ calls s' = calls s ++ [client_connected c]
  /\ client_connected_callback s' = client_connected_callback s
  /\ length (tasks s') = S (length (tasks s)).
Proof.
  cbn [step]. rewrite accept_client_eq.
  destruct (iscoroutinefunction _); cbn;
    rewrite length_app; cbn; repeat split; lia.
Qed.

Lemma run_done_callback_eq t f s :
  (run_done_callback t f s).1
  = match f with
    | internal_client_done cb =>
        set_clients (delete t (clients s))
          (set_calls (calls s ++ [disconnected t cb]) s)
    | _server_closed_connection cb =>
        set_calls (calls s ++ [disconnected t cb]) s
    end.
Proof.
  destruct f as [cb | cb]; [| reflexivity].
  unfold run_done_callback, mbind, M_bind, call_disconnected,
    clients_delitem. cbn.
  destruct (clients s !! t) eqn:Hlook; cbn; [reflexivity |].
  rewrite delete_id by exact Hlook. reflexivity.
Qed.

Lemma assigned_ids_disconnected s t cb :
  assigned_ids (set_calls (calls s ++ [disconnected t cb]) s)
  = assigned_ids s.
Proof.
  unfold assigned_ids. cbn. rewrite omap_app. cbn. apply app_nil_r.
Qed.

(** Done-callbacks only remove registry entries and only call disconnect
    callbacks. *)
Lemma run_done_callbacks_frame t fs s :
  let s' := run_done_callbacks t fs s in
  next_client_id s' = next_client_id s
  /\ tasks s' = tasks s
  /\ client_connected_callback s' = client_connected_callback s
  /\ assigned_ids s' = assigned_ids s
  /\ (forall t' c, clients s' !! t' = Some c -> clients s !! t' = Some c).
Proof.
  revert s. induction fs as [| f fs IH]; intros s; cbn.
  - repeat split; auto.
  - pose proof (run_done_callback_eq t f s) as Heq.
    destruct (IH (run_done_callback t f s).1) as (Hn & Ht & Hc & Ha & Hm).
    set (s1 := (run_done_callback t f s).1) in *.
    rewrite Hn, Ht, Hc, Ha.
    assert (Hone : next_client_id s1 = next_client_id s
                   /\ tasks s1 = tasks s
                   /\ client_connected_callback s1
                      = client_connected_callback s
                   /\ assigned_ids s1 = assigned_ids s
                   /\ (forall t' c, clients s1 !! t' = Some c ->
                                    clients s !! t' = Some c)).
    { rewrite Heq. destruct f as [cb | cb]; cbn.
      - repeat split; try reflexivity.
        + apply assigned_ids_disconnected.
        + intros t' c Hlook.
          apply lookup_delete_Some in Hlook as [_ Hlook]. exact Hlook.
      - repeat split; try reflexivity.
        + apply assigned_ids_disconnected.
        + intros t' c Hlook. exact Hlook. }
    destruct Hone as (Hn1 & Ht1 & Hc1 & Ha1 & Hm1).
    rewrite Hn1, Ht1, Hc1, Ha1. repeat split; try reflexivity.
    intros t' c Hlook. apply Hm1, Hm, Hlook.
Qed.

Lemma task_finishes_frame t why s :
  let s' := task_finishes t why s in
  next_client_id s' = next_client_id s
  /\ client_connected_callback s' = client_connected_callback s
  /\ assigned_ids s' = assigned_ids s
  /\ (forall t' c, clients s' !! t' = Some c -> clients s !! t' = Some c).
Proof.
  unfold task_finishes.
  destruct (tasks s !! t) as [k |]; [| repeat split; auto].
  destruct (Asyncio.done k); [repeat split; auto |].
  match goal with
  | |- context [run_done_callbacks t ?fs ?s0] =>
      destruct (run_done_callbacks_frame t fs s0) as (Hn & _ & Hc & Ha & Hm)
  end.
  cbn. rewrite Hn, Hc, Ha. repeat split; try reflexivity. exact Hm.
Qed.

(** ** Identifiers *)

Lemma ids_invariant_init ccc : ids_invariant (BattleshipServer.__init__ ccc).
Proof.
  unfold ids_invariant, assigned_ids. cbn. repeat split.
  - intros t c Hlook. rewrite lookup_empty in Hlook. discriminate.
  - intros t1 t2 c1 c2 Hlook. rewrite lookup_empty in Hlook. discriminate.
  - constructor.
  - constructor.
Qed.

Lemma ids_invariant_step s e : ids_invariant s -> ids_invariant (step s e).
Proof.
  intros (Hin & Hinj & Hsorted & Hbelow).
  destruct e as [client_reader client_writer | client | t why].
  - destruct (accept_fields client_reader client_writer s)
      as (Hn & Hm & Hcalls & _ & _).
    assert (Hids : assigned_ids (step s (accept client_reader client_writer))
                   = assigned_ids s ++ [next_client_id s]).
    { unfold assigned_ids. rewrite Hcalls, omap_app. reflexivity. }
    unfold ids_invariant. rewrite Hids, Hn, Hm. repeat split.
    + intros t c Hlook. apply elem_of_app.
      apply lookup_insert_Some in Hlook as [[_ <-] | [_ Hlook]].
      * right. apply list_elem_of_singleton. reflexivity.
      * left. eapply Hin. exact Hlook.
    + assert (Hlt : forall t c, clients s !! t = Some c ->
                BattleshipServerClient.id c < next_client_id s).
      { intros t c Hlook. rewrite Forall_forall in Hbelow.
        eapply Hbelow, Hin, Hlook. }
      intros t1 t2 c1 c2 H1 H2 Heq.
      apply lookup_insert_Some in H1 as [[<- <-] | [Hne1 H1]];
        apply lookup_insert_Some in H2 as [[<- <-] | [Hne2 H2]].
      * reflexivity.
      * apply Hlt in H2. cbn in Heq. lia.
      * apply Hlt in H1. cbn in Heq. lia.
      * eapply Hinj; eassumption.
    + apply StronglySorted_app_2; [| exact Hsorted | repeat constructor].
      intros i j Hi Hj. apply list_elem_of_singleton in Hj as ->.
      rewrite Forall_forall in Hbelow. apply Hbelow. exact Hi.
    + apply Forall_app. split.
      * eapply Forall_impl; [exact Hbelow |]. cbn. intros; lia.
      * apply Forall_cons_2; [lia | apply Forall_nil_2].
  - cbn [step]. rewrite connect_eq. repeat split; assumption.
  - destruct (task_finishes_frame t why s) as (Hn & _ & Ha & Hm).
    unfold ids_invariant. cbn [step]. rewrite Hn, Ha. repeat split.
    + intros t' c Hlook. eapply Hin, Hm, Hlook.
    + intros t1 t2 c1 c2 H1 H2. eapply Hinj; eauto.
    + exact Hsorted.
    + exact Hbelow.
Qed.

Lemma ids_invariant_run s es : ids_invariant s -> ids_invariant (run s es).
Proof.
  revert s. induction es as [| e es IH]; intros s Hinv; [exact Hinv |].
  cbn. apply IH, ids_invariant_step, Hinv.
Qed.

(** C8.  In every state a server reaches from its start, whatever was
    accepted, connected or finished before: two different registry entries
    carry different identifiers; the identifiers handed out so far increase
    strictly (so none occurs twice, also after its connection is gone);
    and the next accepted connection is registered with an identifier
    greater than all of them. *)
Theorem client_ids_unique_and_increasing
    (ccc : BattleshipServerClient.t -> callable * callable) es
    (client_reader client_writer : stream) :
  let s := run (BattleshipServer.__init__ ccc) es in
  let s' := step s (accept client_reader client_writer) in
  (forall t1 t2 c1 c2,
     clients s !! t1 = Some c1 -> clients s !! t2 = Some c2 -> t1 <> t2 ->
     BattleshipServerClient.id c1 <> BattleshipServerClient.id c2)
  /\ StronglySorted Z.lt (assigned_ids s)
  /\ NoDup (assigned_ids s)
  /\ (exists c,
        clients s' !! length (tasks s) = Some c
        /\ assigned_ids s' = assigned_ids s ++ [BattleshipServerClient.id c]
        /\ Forall (fun i => i < BattleshipServerClient.id c)
             (assigned_ids s)).
Proof.
  intros s s'.
  pose proof (ids_invariant_run _ es (ids_invariant_init ccc))
    as (Hin & Hinj & Hsorted & Hbelow).
  fold s in Hin, Hinj, Hsorted, Hbelow.
  split; [| split; [exact Hsorted | split]].
  - intros t1 t2 c1 c2 H1 H2 Hne Heq. apply Hne. eapply Hinj; eassumption.
  - clear -Hsorted. induction Hsorted as [| i l _ IH Hall]; constructor.
    + intros Hi. rewrite Forall_forall in Hall. apply Hall in Hi. lia.
    + exact IH.
  - destruct (accept_fields client_reader client_writer s)
      as (_ & Hm & Hcalls & _ & _). fold s' in Hm, Hcalls.
    eexists. split; [rewrite Hm; apply lookup_insert_eq |].
    split; [| exact Hbelow].
    unfold assigned_ids. rewrite Hcalls, omap_app. reflexivity.
Qed.


(** ** Registration *)

(** When the handler's first result is not a coroutine function,
    [_accept_client] raises only after the task exists and the client is
    in the registry. *)
Lemma accept_client_rejects_late client_reader client_writer s :
  let c := BattleshipServerClient.mk client_reader client_writer
             (next_client_id s) in
  iscoroutinefunction (client_connected_callback s c).1 = false ->
  exists s',
    BattleshipServer._accept_client client_reader client_writer s
    = (s', Raise TypeError)
    /\ tasks s' = tasks s ++ [Asyncio.mk false []]
    /\ clients s' !! length (tasks s) = Some c.
Proof.
  intros c Hplain. rewrite accept_client_eq. fold c. rewrite Hplain.
  eexists. split; [reflexivity |]. split; [reflexivity |].
  cbn. apply lookup_insert_eq.
Qed.

(** C9 (the code departs from the claim on the server side).  The client
    constructor raises [TypeError] before it does anything else.  In
    [_accept_client] the same check comes last: by the time it raises, the
    receiving task has been created, an identifier has been taken, the
    client is in the registry and the handler has been called. *)
Theorem accept_client_raises_after_registering :
  let s0 := BattleshipServer.__init__ (fun _ => (Def 0, Def 1)) in
  let c := BattleshipServerClient.mk 7%nat 8%nat 1 in
  BattleshipClient.__init__ (Def 0) (Def 1) s0 = (s0, Raise TypeError)
  /\ BattleshipServer._accept_client 7%nat 8%nat s0
     = (mk 2 [Asyncio.mk false []] (client_connected_callback s0)
          (<[0%nat := c]> ∅) [client_connected c],
        Raise TypeError).
Proof. split; reflexivity. Qed.


(** ** Disconnect notifications *)

Lemma count_disconnects_snoc t (l : list call) (cl : call) :
  length (filter (fun x => is_disconnect_of t x = true) (l ++ [cl]))
  = (length (filter (fun x => is_disconnect_of t x = true) l)
     + (if is_disconnect_of t cl then 1 else 0))%nat.
Proof.
  rewrite filter_app, length_app. f_equal.
  destruct (is_disconnect_of t cl) eqn:Hcl.
  - rewrite filter_cons_True by exact Hcl. reflexivity.
  - rewrite filter_cons_False by (rewrite Hcl; discriminate). reflexivity.
Qed.

Lemma disconnects_of_snoc t s s' (cl : call) :
  calls s' = calls s ++ [cl] ->
  disconnects_of t s'
  = (disconnects_of t s + (if is_disconnect_of t cl then 1 else 0))%nat.
Proof.
  intros Hcalls. unfold disconnects_of.
  rewrite Hcalls. apply count_disconnects_snoc.
Qed.

Lemma accept_tasks client_reader client_writer s :
  exists fs,
    tasks (step s (accept client_reader client_writer))
    = tasks s ++ [Asyncio.mk false fs]
    /\ (fs = [] \/ exists cb, fs = [internal_client_done cb]).
Proof.
  cbn [step]. rewrite accept_client_eq.
  destruct (iscoroutinefunction _); cbn; eauto.
Qed.

(** An event that appends a task and leaves the disconnect calls alone
    keeps [lifecycle] for all handles, provided the new task starts in a
    state [lifecycle] allows. *)
Lemma lifecycle_new_task s s' (k : Asyncio.Task done_callback) :
  (forall t, lifecycle s t) ->
  tasks s' = tasks s ++ [k] ->
  Asyncio.done k = false ->
  (forall t, disconnects_of t s' = disconnects_of t s) ->
  (forall t, t <> length (tasks s) -> clients s' !! t = clients s !! t) ->
  match Asyncio._callbacks k with
  | [] | [internal_client_done _] => is_Some (clients s' !! length (tasks s))
  | [_server_closed_connection _] => clients s' !! length (tasks s) = None
  | _ => False
  end ->
  forall t, lifecycle s' t.
Proof.
  intros Hinv Htasks Hpending Hdisc Hother Hnew t.
  specialize (Hinv t). unfold lifecycle in *. rewrite Htasks, Hdisc.
  destruct (lt_eq_lt_dec t (length (tasks s))) as [[Hlt | ->] | Hgt].
  - rewrite lookup_app_l by exact Hlt. rewrite Hother by lia. exact Hinv.
  - rewrite list_lookup_middle by reflexivity.
    rewrite lookup_ge_None_2 in Hinv by lia. destruct Hinv as [Hzero Hnone].
    rewrite Hpending, Hzero.
    destruct (Asyncio._callbacks k) as [| [cb | cb] [|]];
      try contradiction; split; auto.
  - rewrite lookup_ge_None_2 by (rewrite length_app; cbn; lia).
    rewrite lookup_ge_None_2 in Hinv by lia.
    rewrite Hother by lia. exact Hinv.
Qed.

Lemma lifecycle_init ccc t : lifecycle (BattleshipServer.__init__ ccc) t.
Proof. unfold lifecycle. cbn. split; [reflexivity | apply lookup_empty]. Qed.

Lemma lifecycle_accept client_reader client_writer s :
  (forall t, lifecycle s t) ->
  forall t, lifecycle (step s (accept client_reader client_writer)) t.
Proof.
  intros Hinv.
  destruct (accept_tasks client_reader client_writer s)
    as (fs & Htasks & Hfs).
  destruct (accept_fields client_reader client_writer s)
    as (_ & Hm & Hcalls & _ & _).
  eapply lifecycle_new_task; [exact Hinv | exact Htasks | reflexivity | | |].
  - intros t. rewrite (disconnects_of_snoc t s _ _ Hcalls). cbn. lia.
  - intros t Hne. rewrite Hm. apply lookup_insert_ne. congruence.
  - assert (Hsome : is_Some (clients (step s (accept client_reader
                                                 client_writer))
                             !! length (tasks s))).
    { rewrite Hm, lookup_insert_eq. eauto. }
    cbn. destruct Hfs as [-> | [cb ->]]; exact Hsome.
Qed.

Lemma lifecycle_connect (client : BattleshipClient.t) s :
  (forall t, lifecycle s t) ->
  forall t, lifecycle (step s (connect client)) t.
Proof.
  intros Hinv. cbn [step]. rewrite connect_eq.
  eapply lifecycle_new_task;
    [exact Hinv | reflexivity | reflexivity | reflexivity | reflexivity |].
  cbn. specialize (Hinv (length (tasks s))). unfold lifecycle in Hinv.
  rewrite lookup_ge_None_2 in Hinv by lia. apply Hinv.
Qed.

Lemma lifecycle_finish t1 why s :
  (forall t, lifecycle s t) ->
  forall t, lifecycle (step s (finish t1 why)) t.
Proof.
  intros Hinv. cbn [step]. unfold task_finishes.
  destruct (tasks s !! t1) as [k |] eqn:Hk; [| exact Hinv].
  destruct (Asyncio.done k) eqn:Hdone; [exact Hinv |].
  pose proof (Hinv t1) as H1. unfold lifecycle in H1. rewrite Hk, Hdone in H1.
  pose proof (lookup_lt_Some _ _ _ Hk) as Hlt.
  intros t. specialize (Hinv t). unfold lifecycle, disconnects_of in *.
  destruct (Asyncio._callbacks k) as [| [cb | cb] [|]] eqn:Hfs;
    try contradiction; cbn [run_done_callbacks];
    rewrite ?run_done_callback_eq;
    cbn [tasks clients calls set_tasks set_calls set_clients];
    destruct (decide (t = t1)) as [-> | Hne].
  - rewrite list_lookup_insert_eq by exact Hlt. cbn. exact H1.
  - rewrite list_lookup_insert_ne by congruence. exact Hinv.
  - rewrite list_lookup_insert_eq by exact Hlt. cbn.
    rewrite lookup_delete_eq, count_disconnects_snoc. cbn.
    rewrite bool_decide_true by reflexivity. destruct H1 as [-> _].
    split; reflexivity.
  - rewrite list_lookup_insert_ne by congruence.
    rewrite lookup_delete_ne by congruence.
    rewrite count_disconnects_snoc. cbn.
    rewrite bool_decide_false by congruence. rewrite Nat.add_0_r.
    exact Hinv.
  - rewrite list_lookup_insert_eq by exact Hlt. cbn.
    rewrite count_disconnects_snoc. cbn.
    rewrite bool_decide_true by reflexivity. destruct H1 as [-> Hnone].
    split; [reflexivity | exact Hnone].
  - rewrite list_lookup_insert_ne by congruence.
    rewrite count_disconnects_snoc. cbn.
    rewrite bool_decide_false by congruence. rewrite Nat.add_0_r.
    exact Hinv.
Qed.

Lemma lifecycle_run s es :
  (forall t, lifecycle s t) -> forall t, lifecycle (run s es) t.
Proof.
  revert s. induction es as [| e es IH]; intros s Hinv; [exact Hinv |].
  cbn. apply IH. destruct e as [client_reader client_writer | client | t1 why].
  - apply lifecycle_accept, Hinv.
  - apply lifecycle_connect, Hinv.
  - apply lifecycle_finish, Hinv.
Qed.


(** A task that is done stays done, with the callbacks it had. *)
Lemma done_task_stable s e t fs :
  tasks s !! t = Some (Asyncio.mk true fs) ->
  tasks (step s e) !! t = Some (Asyncio.mk true fs).
Proof.
  intros Ht. pose proof (lookup_lt_Some _ _ _ Ht) as Hlt.
  destruct e as [client_reader client_writer | client | t1 why].
  - destruct (accept_tasks client_reader client_writer s) as (fs' & -> & _).
    rewrite lookup_app_l by exact Hlt. exact Ht.
  - cbn [step]. rewrite connect_eq. cbn.
    rewrite lookup_app_l by exact Hlt. exact Ht.
  - cbn [step]. unfold task_finishes.
    destruct (tasks s !! t1) as [k |] eqn:Hk; [| exact Ht].
    destruct (Asyncio.done k) eqn:Hdone; [exact Ht |].
    match goal with
    | |- context [run_done_callbacks t1 ?fs0 ?s0] =>
        destruct (run_done_callbacks_frame t1 fs0 s0) as (_ & -> & _)
    end.
    cbn. rewrite list_lookup_insert_ne; [exact Ht |].
    intros ->. rewrite Hk in Ht. injection Ht as ->. discriminate.
Qed.

Lemma done_task_stable_run s es t fs :
  tasks s !! t = Some (Asyncio.mk true fs) ->
  tasks (run s es) !! t = Some (Asyncio.mk true fs).
Proof.
  revert s. induction es as [| e es IH]; intros s Ht; [exact Ht |].
  cbn. apply IH, done_task_stable, Ht.
Qed.


(** C10 (the code departs from the claim).  The handler of this server
    returns a plain function as message callback, so [_accept_client]
    raises before it registers the done-callback.  The connection's task
    then ends, for whatever cause, and whatever happens afterwards: the
    task is done, no disconnect callback was ever called for it, and its
    registry entry is still there. *)
Theorem rejected_connection_is_never_notified (why : cause) es :
  let s0 := BattleshipServer.__init__ (fun _ => (Def 0, Def 1)) in
  let s := run s0 (accept 7%nat 8%nat :: finish 0%nat why :: es) in
  tasks s !! 0%nat = Some (Asyncio.mk true [])
  /\ disconnects_of 0%nat s = 0%nat
  /\ is_Some (clients s !! 0%nat).
Proof.
  intros s0 s.
  assert (Ht : tasks s !! 0%nat = Some (Asyncio.mk true [])).
  { subst s. cbn [run foldl]. apply done_task_stable_run. reflexivity. }
  split; [exact Ht |].
  assert (Hl : lifecycle s 0%nat).
  { apply lifecycle_run. intros t. apply lifecycle_init. }
  unfold lifecycle, task in Hl. rewrite Ht in Hl. exact Hl.
Qed.

End NetworkFacts.

(** * Further properties of the battlefield *)

Section BattlefieldMore.

Import Battlefield.

Implicit Types (b : Battlefield.t) (s : Ship.t) (ships : list Ship.t).
Implicit Types (x y bound ship_id : Z) (d : Direction).

(** ** [Battlefield.move] *)

Lemma move_loop_find bound ships ship_id d :
  move_loop bound ships ship_id d =
    match list_find (fun s => Ship._ship_id s = ship_id) ships with
    | Some (i, s) =>
        (<[i := (Ship.move bound d s).1]> ships,
         PyBool (Ship.move bound d s).2)
    | None => (ships, PyNone)
    end.
Proof.
  induction ships as [| s ships IH]; [reflexivity |].
  cbn [move_loop list_find].
  destruct (decide (Ship._ship_id s = ship_id)) as [Heq | Hne].
  - rewrite bool_decide_true by exact Heq.
    destruct (Ship.move bound d s) as [s' []]; reflexivity.
  - rewrite bool_decide_false by exact Hne. rewrite IH.
    destruct (list_find _ ships) as [[i s'] |]; reflexivity.
Qed.

(** X1.  [move] hands the direction to the first ship in the list that
    carries the identifier and to no other: that ship is replaced by what
    [Ship.move] leaves, every other ship (also a later one with the same
    identifier) stays, and the answer is that ship's answer as a [bool].
    The answer is [None] exactly when no ship carries the identifier. *)
Theorem move_reaches_first_ship_with_id bound b ship_id d :
  move bound b ship_id d
  = match list_find (fun s => Ship._ship_id s = ship_id) (_ships b) with
    | Some (i, s) =>
        (with_ships b (<[i := (Ship.move bound d s).1]> (_ships b)),
         PyBool (Ship.move bound d s).2)
    | None => (b, PyNone)
    end
  /\ ((move bound b ship_id d).2 = PyNone
      <-> Forall (fun s => Ship._ship_id s <> ship_id) (_ships b)).
Proof.
  unfold move. rewrite move_loop_find.
  destruct (list_find _ (_ships b)) as [[i s] |] eqn:Hfind.
  - split; [reflexivity |]. cbn. split; [discriminate |].
    intros Hall. apply list_find_Some in Hfind as (Hi & Hid & _).
    rewrite Forall_forall in Hall. exfalso.
    apply (Hall s); [eapply list_elem_of_lookup_2; exact Hi | exact Hid].
  - rewrite with_ships_same. split; [reflexivity |]. cbn.
    split; [| reflexivity]. intros _.
    apply list_find_None in Hfind. exact Hfind.
Qed.

(** ** What no call changes *)

Lemma move_keeps_grids bound b ship_id d :
  let b' := (move bound b ship_id d).1 in
  _my_battlefield b' = _my_battlefield b
  /\ _enemy_battlefield b' = _enemy_battlefield b
  /\ length (_ships b') = length (_ships b).
Proof.
  unfold move. rewrite move_loop_find.
  destruct (list_find _ (_ships b)) as [[i s] |]; cbn;
    rewrite ?length_insert; auto.
Qed.

Lemma strike_keeps_grids b x y :
  let b' := (strike b x y).1 in
  _my_battlefield b' = _my_battlefield b
  /\ _enemy_battlefield b' = _enemy_battlefield b
  /\ length (_ships b') = length (_ships b).
Proof.
  unfold strike. rewrite strike_loop_find.
  destruct (list_find _ (_ships b)) as [[i s] |]; cbn;
    rewrite ?length_insert; auto.
Qed.

Lemma shoot_reads_enemy_grid_only b b' x y :
  _enemy_battlefield b = _enemy_battlefield b' -> shoot b x y = shoot b' x y.
Proof. intros Heq. unfold shoot, enemy_cell. rewrite Heq. reflexivity. Qed.

(** X2.  No call records anything in a grid: after any sequence of
    [move], [strike] and [shoot] calls both grids are what they were, the
    battlefield has as many ships as before, and [shoot] answers every
    coordinate as it did at the start. *)
Theorem calls_never_change_the_grids bound b (cs : list battlefield_call) :
  let b' := after_calls bound b cs in
  _my_battlefield b' = _my_battlefield b
  /\ _enemy_battlefield b' = _enemy_battlefield b
  /\ length (_ships b') = length (_ships b)
  /\ (forall x y, shoot b' x y = shoot b x y).
Proof.
  cbv zeta.
  assert (Hkeep : _my_battlefield (after_calls bound b cs) = _my_battlefield b
                  /\ _enemy_battlefield (after_calls bound b cs)
                     = _enemy_battlefield b
                  /\ length (_ships (after_calls bound b cs))
                     = length (_ships b)).
  { revert b. induction cs as [| c cs IH]; intros b; [auto |].
    cbn [after_calls foldl]. fold (after_calls bound (after_call bound b c) cs).
    destruct (IH (after_call bound b c)) as (Hmy & Hen & Hlen).
    rewrite Hmy, Hen, Hlen.
    destruct c as [ship_id d | x y | x y]; cbn [after_call].
    - apply move_keeps_grids.
    - apply strike_keeps_grids.
    - auto. }
  destruct Hkeep as (Hmy & Hen & Hlen).
  repeat split; try assumption.
  intros x y. apply shoot_reads_enemy_grid_only. exact Hen.
Qed.

(** ** [Battlefield.shoot] on any grid *)

(** X3.  Whatever the grid holds, [shoot] answers [True] exactly when the
    guard passes, the cell can be read, and the cell holds one of the
    three states: a cell recorded as hit or as miss is accepted like a
    hidden one. *)
Theorem shoot_accepts_every_state b x y :
  shoot b x y = Ok true
  <-> x * y >= len (_enemy_battlefield b)
      /\ exists c, enemy_cell b x y = Ok c /\ cell_state c.
Proof.
  unfold shoot, cell_state.
  destruct (bool_decide_reflect (x * y >= len (_enemy_battlefield b)))
    as [Hge | Hlt].
  - destruct (enemy_cell b x y) as [c | e]; cbn.
    + assert (Hstate : (exists c', Ok c = Ok c' /\ (c' = 0 \/ c' = 1 \/ c' = 2))
                       <-> c = 0 \/ c = 1 \/ c = 2).
      { split; [intros (c' & Hc' & Hs); injection Hc' as <-; exact Hs |].
        intros Hs. exists c. split; [reflexivity | exact Hs]. }
      rewrite Hstate.
      repeat case_bool_decide; split; try discriminate; try reflexivity;
        try (intros _; split; [exact Hge | lia]).
      all: intros [_ Hs]; lia.
    + split; [discriminate |]. intros (_ & c & Hc & _). discriminate.
  - split; [discriminate |]. intros [Hge _]. contradiction.
Qed.



(** ** [Battlefield.strike] *)

(** X5.  Whether a strike hits does not depend on the order of the
    ships: two battlefields with the same ships in any order give the
    same answer at every coordinate. *)
Theorem strike_answer_ignores_ship_order b b' x y :
  _ships b ≡ₚ _ships b' ->
  (strike b x y).2 = (strike b' x y).2.
Proof.
  intros Hperm.
  assert (Hiff : forall b0, (strike b0 x y).2 = true
                   <-> Exists (fun s => Ship.occupies s x y = true)
                         (_ships b0)).
  { intros b0. unfold strike. rewrite strike_loop_find.
    destruct (list_find _ (_ships b0)) as [[i s] |] eqn:Hfind; cbn.
    - apply list_find_Some in Hfind as (Hi & Hocc & _).
      split; [| reflexivity]. intros _. apply Exists_exists.
      exists s. split; [eapply list_elem_of_lookup_2; exact Hi | exact Hocc].
    - apply list_find_None in Hfind. split; [discriminate |].
      intros Hex. apply Exists_exists in Hex as (s & Hin & Hocc).
      rewrite Forall_forall in Hfind. exfalso. exact (Hfind s Hin Hocc). }
  pose proof (Hiff b) as Hb. pose proof (Hiff b') as Hb'.
  rewrite Hperm in Hb.
  destruct (strike b x y).2, (strike b' x y).2; try reflexivity.
  - symmetry. apply Hb', Hb. reflexivity.
  - apply Hb, Hb'. reflexivity.
Qed.

Lemma strike_answer_ignores_ship_order_witness :
  let s1 := Battleship.__init__ 1 0 0 in
  let s2 := Battleship.__init__ 2 3 4 in
  (strike (Battlefield.__init__ 10 [s1; s2]) 5 4).2
  = (strike (Battlefield.__init__ 10 [s2; s1]) 5 4).2.
Proof.
  apply strike_answer_ignores_ship_order. cbn. apply Permutation_swap.
Defined.

(** ** [Battleship] *)

(** X13.  A battleship built by [Battleship.__init__] covers the five
    cells from its origin rightwards in one row, whatever its identifier:
    with [_x_length = 5] and [_y_length = 1] the cell [(cx, cy)] is
    occupied exactly when [x <= cx <= x + 4] and [cy = y]; so it lies on a
    [bound] x [bound] field exactly when [0 <= x], [x + 5 <= bound] and
    [0 <= y < bound]. *)
Theorem battleship_covers_five_cells_in_a_row ship_id x y bound :
  let s := Battleship.__init__ ship_id x y in
  (forall cx cy, Ship.occupies s cx cy = true <-> x <= cx <= x + 4 /\ cy = y)
  /\ Ship.occupiedCells s
     = [(x, y); (x + 1, y); (x + 2, y); (x + 3, y); (x + 4, y)]
  /\ (forallb (Ship.in_bounds bound) (Ship.occupiedCells s) = true
      <-> 0 <= x /\ x + 5 <= bound /\ 0 <= y < bound).
Proof.
  intros s. subst s.
  assert (Hcells : Ship.occupiedCells (Battleship.__init__ ship_id x y)
                   = [(x, y); (x + 1, y); (x + 2, y); (x + 3, y);
                      (x + 4, y)]).
  { unfold Ship.occupiedCells, seqZ. cbn.
    change (Z.to_nat 5) with 5%nat. change (Z.to_nat 1) with 1%nat. cbn.
    repeat (f_equal; try (f_equal; lia)). }
  split; [| split; [exact Hcells |]].
  - intros cx cy. unfold Ship.occupies. cbn.
    rewrite andb_true_iff, !bool_decide_eq_true. lia.
  - rewrite Hcells. unfold Ship.in_bounds. cbn.
    rewrite !andb_true_iff, !bool_decide_eq_true. lia.
Qed.

End BattlefieldMore.

(** * Further properties of the connection registry *)

Section NetworkMore.

Import Network.

Implicit Types (s : state) (t : task) (es : list event).

(** ** The identifier counter *)



(** ** Disconnect notifications and the registry *)






(** ** Connecting a client more than once *)

Lemma finish_pending_client_task s t (cb : callable) (why : cause) :
  tasks s !! t = Some (Asyncio.mk false [_server_closed_connection cb]) ->
  task_finishes t why s
  = set_calls (calls s ++ [disconnected t cb])
      (set_tasks
         (<[t := Asyncio.mk true [_server_closed_connection cb]]> (tasks s))
         s).
Proof. intros Ht. unfold task_finishes. rewrite Ht. reflexivity. Qed.

(** X10.  Every [connect] call on a client object starts a receiving
    task of its own and registers [closed_callback] on it, and the object
    remembers the latest task only.  After two [connect] calls and the end
    of both tasks, [closed_callback] has been called twice, once for each
    task; the server's registry and counter are not involved. *)
Theorem connect_twice_notifies_twice s (client : BattleshipClient.t)
    (why1 why2 : cause) :
  let n := length (tasks s) in
  let cb := BattleshipClient.closed_callback client in
  let with_task t :=
    BattleshipClient.mk (BattleshipClient.msg_callback client) cb (Some t) in
  let s1 := (BattleshipClient.connect client s).1 in
  let s2 := (BattleshipClient.connect (with_task n) s1).1 in
  let s' := run s2 [finish n why1; finish (S n) why2] in
  (BattleshipClient.connect client s).2 = Ok (with_task n)
  /\ (BattleshipClient.connect (with_task n) s1).2 = Ok (with_task (S n))
  /\ calls s' = calls s ++ [disconnected n cb; disconnected (S n) cb]
  /\ clients s' = clients s
  /\ next_client_id s' = next_client_id s.
Proof.
  intros n cb with_task s1 s2 s'.
  assert (Hs1 : tasks s1
                = tasks s ++ [Asyncio.mk false [_server_closed_connection cb]]).
  { subst s1. rewrite connect_eq. reflexivity. }
  assert (Hlen1 : length (tasks s1) = S n).
  { rewrite Hs1, length_app. cbn. subst n. lia. }
  split; [reflexivity |]. split.
  { unfold BattleshipClient.connect, mbind, M_bind, Task_new,
      add_done_callback, mret, M_ret. cbn. rewrite Hlen1. reflexivity. }
  assert (Hs2 : s2 = set_tasks
                       ((tasks s
                         ++ [Asyncio.mk false [_server_closed_connection cb]])
                        ++ [Asyncio.mk false [_server_closed_connection cb]])
                       s).
  { subst s2. rewrite connect_eq, Hs1. subst s1. rewrite connect_eq.
    reflexivity. }
  subst s'. cbn [run foldl step]. rewrite Hs2.
  rewrite (finish_pending_client_task _ n cb).
  2:{ cbn [tasks set_tasks]. rewrite lookup_app_l
        by (rewrite length_app; cbn; subst n; lia).
      apply list_lookup_middle. reflexivity. }
  rewrite (finish_pending_client_task _ (S n) cb).
  2:{ cbn [tasks set_tasks set_calls].
      rewrite list_lookup_insert_ne by lia.
      apply list_lookup_middle. rewrite length_app. cbn. subst n. lia. }
  cbn. rewrite <- app_assoc. repeat split; reflexivity.
Qed.

(** ** A connection from accept to its end *)



End NetworkMore.

(** * Starting and stopping the server *)

Section ListeningFacts.

Import Listening.

Implicit Types (s : Listening.t) (l : listener) (cs : list Listening.call).




(** X12.  If [start] succeeds twice without a [stop] in between, the
    second call overwrites [self.server], and the server object of the
    first call keeps listening whatever [start] and [stop] calls follow:
    [stop] only ever closes the object [self.server] holds. *)
Theorem second_start_leaks_the_first_listener cs1 cs2 :
  let s := do_calls __init__ cs1 in
  let s' := do_calls s (call_start true :: call_start true :: cs2) in
  created s ∈ listening s' /\ server s' <> Some (created s).
Proof.
  intros s s'. subst s'. cbn [do_calls foldl do_call start fst].
  set (l := created s).
  set (s2 := {| server := Some (created _); listening := _; created := _ |}).
  assert (Hstart : l ∈ listening s2 /\ server s2 <> Some l
                   /\ (l < created s2)%nat).
  { subst s2 l. cbn. split; [set_solver |]. split; [| lia].
    intros [= Heq]. lia. }
  clearbody s2 l. clear s. revert s2 Hstart.
  induction cs2 as [| c cs2 IH]; intros s2 (Hin & Hne & Hlt).
  - cbn. split; assumption.
  - cbn [foldl]. apply IH. destruct c as [[|] |]; cbn.
    + split; [apply elem_of_union; right; exact Hin |]. split; [| lia].
      intros [= Heq]. lia.
    + auto.
    + unfold stop. destruct (server s2) as [l0 |] eqn:Hserver; cbn.
      * split; [| split; [discriminate | exact Hlt]].
        apply elem_of_difference. split; [exact Hin |].
        intros Hl0. apply elem_of_singleton in Hl0 as ->.
        apply Hne. reflexivity.
      * rewrite Hserver. auto.
Qed.

End ListeningFacts.
